(** * The HTML report extractor of [app.py] ([malware_scrape])

  A shallow embedding of the [/malware_scrape] handler: the queries it
  makes on the parsed document ([find], [find_next], [find_all],
  [get_text]), the nested [extract_table] helper, the classification of
  the malware-lookup links and the assembly of the response.

  Conventions.
  - A Python [str] is a [string]; a character is the code point of the
    same number, so the model covers text whose code points are below
    256.  [isspace] and [lower] are Python's on that range.
  - A Python [dict] is a [gmap]; a Python [list] is a [list].
  - The parsed document is the tree the parser hands back.  The model
    covers documents made of text and tags: comments, CDATA sections,
    declarations and the text of script and style elements are outside
    it.
  - A path of the file system that exists is a file that can be read,
    with its text, or one that cannot (a directory, for instance), with
    the exception that opening or reading it raises.
  - The parser itself ([BeautifulSoup(f, "html.parser")]) is a third
    party library: it is a parameter of the handler. *)

From Stdlib Require Import Ascii String ZArith.
From stdpp Require Import gmap strings list fin_maps.

Open Scope string_scope.
Open Scope Z_scope.

(** ** Python strings *)

Module PyStr.

(** [str.isspace] on one character, for code points below 256. *)
Definition isspace (c : ascii) : bool :=
  let n := Z.of_N (N_of_ascii c) in
  ((9 <=? n) && (n <=? 13)) || ((28 <=? n) && (n <=? 32))
  || (n =? 133) || (n =? 160).

(** [str.lower] on one character, for code points below 256. *)
Definition lower_char (c : ascii) : ascii :=
  let n := Z.of_N (N_of_ascii c) in
  if ((65 <=? n) && (n <=? 90))
     || ((192 <=? n) && (n <=? 222) && negb (n =? 215))
  then ascii_of_N (Z.to_N (n + 32))
  else c.

Fixpoint lower (s : string) : string :=
  match s with
  | EmptyString => EmptyString
  | String c s' => String (lower_char c) (lower s')
  end.

Fixpoint lstrip (s : string) : string :=
  match s with
  | EmptyString => EmptyString
  | String c s' => if isspace c then lstrip s' else s
  end.

Definition is_empty (s : string) : bool :=
  match s with EmptyString => true | String _ _ => false end.

Fixpoint rstrip (s : string) : string :=
  match s with
  | EmptyString => EmptyString
  | String c s' =>
      let r := rstrip s' in
      if isspace c && is_empty r then EmptyString else String c r
  end.

(** [s.strip()] *)
Definition strip (s : string) : string := lstrip (rstrip s).

(** [sep.join(l)] *)
Fixpoint join (sep : string) (l : list string) : string :=
  match l with
  | [] => EmptyString
  | [s] => s
  | s :: l' => s +:+ sep +:+ join sep l'
  end.

(** [needle in hay] *)
Fixpoint contains (needle hay : string) : bool :=
  String.prefix needle hay
  || match hay with
     | EmptyString => false
     | String _ hay' => contains needle hay'
     end.

End PyStr.

(** ** The parsed document *)

Module Soup.

(** A node of the tree: a [NavigableString] or a [Tag] with its name,
    its attribute dictionary and its contents. *)
#[warnings="-register-all"]
Inductive node :=
| NavigableString (s : string)
| Tag (name : string) (attrs : gmap string string) (contents : list node).

Definition soup := list node.

(** A node followed by everything below it, in document order. *)
Fixpoint self_and_descendants (n : node) : list node :=
  n :: match n with
       | NavigableString _ => []
       | Tag _ _ cs => flat_map self_and_descendants cs
       end.

(** [tag.descendants] *)
Definition descendants (n : node) : list node :=
  match n with
  | NavigableString _ => []
  | Tag _ _ cs => flat_map self_and_descendants cs
  end.

(** [soup.descendants]: the whole document in document order. *)
Definition soup_descendants (doc : soup) : list node :=
  flat_map self_and_descendants doc.

(** A tag the handler holds on to, with the elements that follow it in
    document order ([tag.next_elements]). *)
Record element := Element { el_node : node; next_elements : list node }.

Definition has_name (name : string) (n : node) : bool :=
  match n with
  | Tag nm _ _ => bool_decide (nm = name)
  | NavigableString _ => false
  end.

Definition get_attr (n : node) (k : string) : option string :=
  match n with
  | Tag _ attrs _ => attrs !! k
  | NavigableString _ => None
  end.

(** The first node of [l] that satisfies [p], with what follows it. *)
Fixpoint first_match (p : node → bool) (l : list node) : option element :=
  match l with
  | [] => None
  | n :: l' => if p n then Some (Element n l') else first_match p l'
  end.

(** [soup.find(name, {"id": v})] *)
Definition find_by_id (doc : soup) (name v : string) : option element :=
  first_match
    (λ n, has_name name n && bool_decide (get_attr n "id" = Some v))
    (soup_descendants doc).

(** [el.find_next(name)] *)
Definition find_next (el : element) (name : string) : option element :=
  first_match (has_name name) (next_elements el).

(** [tag.find_all(name)] *)
Definition find_all (n : node) (name : string) : list node :=
  filter (λ d, has_name name d = true) (descendants n).

(** [tag.find_all(name, href=True)] *)
Definition find_all_href (n : node) (name : string) : list node :=
  filter (λ d, has_name name d = true ∧ is_Some (get_attr d "href"))
         (descendants n).

(** The text fragments below [n], each stripped, the empty ones left
    out: the strings [get_text] joins when [strip=True]. *)
Definition stripped_strings (n : node) : list string :=
  omap (λ d, match d with
             | NavigableString s =>
                 let s' := PyStr.strip s in
                 if PyStr.is_empty s' then None else Some s'
             | Tag _ _ _ => None
             end) (descendants n).

(** [tag.get_text(sep, strip=True)] *)
Definition get_text (sep : string) (n : node) : string :=
  PyStr.join sep (stripped_strings n).

End Soup.

(** ** Python values, exceptions and dictionaries *)

Module Py.

(** The values the handler builds and hands to [jsonify]. *)
#[warnings="-register-all"]
Inductive value :=
| VNone
| VStr (s : string)
| VList (l : list value)
| VDict (d : gmap string value).

Inductive exn :=
| ParseError
| KeyError (k : string)
| TypeError
| OSError (name : string).

(** A computation that returns or raises. *)
Definition M (A : Type) : Type := (exn + A)%type.

Definition ret {A} (a : A) : M A := inr a.
Definition raise {A} (e : exn) : M A := inl e.
Definition bind {A B} (m : M A) (k : A → M B) : M B :=
  match m with
  | inl e => inl e
  | inr a => k a
  end.

(** A path that exists: a file that can be opened and read as text, or
    one that cannot (a directory, a file without read permission, bytes
    that are no UTF-8 text), with the exception raised. *)
Inductive entry :=
| File (text : string)
| Unreadable (e : exn).

(** [os.path.exists(path)] *)
Definition path_exists (files : gmap string entry) (path : string) : bool :=
  match files !! path with
  | Some _ => true
  | None => false
  end.

(** [open(path, "r", encoding="utf-8")] and the reading of its text. *)
Definition open_read (files : gmap string entry) (path : string) : M string :=
  match files !! path with
  | Some (File text) => ret text
  | Some (Unreadable e) => raise e
  | None => raise (OSError "FileNotFoundError")
  end.

(** [for x in l: s = body(s, x)] *)
Fixpoint for_each {S A} (body : S → A → M S) (s : S) (l : list A) : M S :=
  match l with
  | [] => ret s
  | x :: l' => bind (body s x) (λ s', for_each body s' l')
  end.

(** [d[k]] *)
Definition getitem (d : gmap string value) (k : string) : M value :=
  match d !! k with
  | Some v => ret v
  | None => raise (KeyError k)
  end.

(** [d[k1][k2] = v]: the inner dictionary is the object stored under
    [k1], so the update is seen through [d]. *)
Definition setitem2 (d : gmap string value) (k1 k2 : string) (v : value)
  : M (gmap string value) :=
  bind (getitem d k1) (λ inner,
    match inner with
    | VDict m => ret (<[k1 := VDict (<[k2 := v]> m)]> d)
    | _ => raise TypeError
    end).

(** [dict(pairs)]: a later pair overwrites an earlier one with the same
    key. *)
Definition dict (pairs : list (string * string)) : gmap string string :=
  foldl (λ m kv, <[kv.1 := kv.2]> m) ∅ pairs.

(** A JSON document. *)
#[warnings="-register-all"]
Inductive json :=
| JNull
| JString (s : string)
| JArray (l : list json)
| JObject (o : gmap string json).

(** [jsonify(v)]: the JSON document of a value. *)
Fixpoint jsonify (v : value) : json :=
  match v with
  | VNone => JNull
  | VStr s => JString s
  | VList l => JArray (jsonify <$> l)
  | VDict d => JObject (jsonify <$> d)
  end.

(** A record of strings, and a list of them, as values. *)
Definition of_record (d : gmap string string) : value := VDict (VStr <$> d).
Definition of_rows (rows : list (gmap string string)) : value :=
  VList (of_record <$> rows).

End Py.

Notation "'let!' x := m 'in' k" := (Py.bind m (λ x, k))
(at level 10, x name, m at level 100, k at level 200, only parsing).

(** ** The handler *)

Module App.
Import PyStr Soup Py.

(** [extract_table], from the located table on (lines 143 to 149). *)
Definition table_headers (table : node) : list string :=
  (λ h, lower (get_text "" h)) <$> find_all table "th".

Definition row_cols (tr : node) : list string :=
  get_text " " <$> find_all tr "td".

Definition append_row (headers : list string)
    (rows : list (gmap string string)) (tr : node)
  : list (gmap string string) :=
  let cols := row_cols tr in
  match cols with
  | [] => rows
  | _ :: _ => rows ++ [dict (zip headers cols)]
  end.

(** The loop of lines 144 to 148 over the rows [trs]. *)
Definition collect_rows (headers : list string) (trs : list node)
  : list (gmap string string) :=
  foldl (append_row headers) [] trs.

Definition table_rows (table : node) : list (gmap string string) :=
  let headers := table_headers table in
  collect_rows headers (drop 1 (find_all table "tr")).

(** [extract_table(section_id)] (lines 136 to 149).  A tag is always
    true, so [if not anchor] and [if not table] test for [None]. *)
Definition extract_table (doc : soup) (section_id : string)
  : list (gmap string string) :=
  match find_by_id doc "a" section_id with
  | None => []
  | Some anchor =>
      match find_next anchor "table" with
      | None => []
      | Some table => table_rows (el_node table)
      end
  end.

(** The body of the loop over the links (lines 158 to 167). *)
Definition link_text (link : node) : string := lower (get_text "" link).

Definition link_step (result : gmap string value) (link : node)
  : M (gmap string value) :=
  let text := link_text link in
  let! href := match get_attr link "href" with
               | Some h => ret h
               | None => raise (KeyError "href")
               end in
  if contains "virustotal" text then
    setitem2 result "malware_lookup" "virustotal" (VStr href)
  else if contains "triage" text then
    setitem2 result "malware_lookup" "triage" (VStr href)
  else if contains "metadefender" text then
    setitem2 result "malware_lookup" "metadefender" (VStr href)
  else if contains "hybrid" text then
    setitem2 result "malware_lookup" "hybrid_analysis" (VStr href)
  else ret result.

(** The dictionary of lines 127 to 134. *)
Definition initial_result : gmap string value :=
  <["emails" := VList []]>
  (<["urls" := VList []]>
  (<["domain_malware_check" := VList []]>
  (<["behaviour_analysis" := VList []]>
  (<["apkid_analysis" := VList []]>
  (<["malware_lookup" := VDict ∅]> ∅))))).

(** Lines 152 to 167. *)
Definition malware_lookup_links (doc : soup) (result : gmap string value)
  : M (gmap string value) :=
  match find_by_id doc "a" "malware_lookup" with
  | None => ret result
  | Some malware_section =>
      match find_next malware_section "section" with
      | None => ret result
      | Some container =>
          for_each link_step result (find_all_href (el_node container) "a")
      end
  end.

(** Lines 127 to 173: the value bound to [result] when the handler
    reaches its last line. *)
Definition parsed_report (doc : soup) : M (gmap string value) :=
  let result := initial_result in
  let! result := malware_lookup_links doc result in
  let result := <["apkid_analysis" := of_rows (extract_table doc "apkid")]> result in
  let result := <["behaviour_analysis" := of_rows (extract_table doc "behaviour")]> result in
  let result := <["domain_malware_check" := of_rows (extract_table doc "malware_check")]> result in
  let result := <["urls" := of_rows (extract_table doc "urls")]> result in
  let result := <["emails" := of_rows (extract_table doc "emails")]> result in
  ret result.

(** What a view function returns: a status and a JSON body. *)
Record response := Response { status : Z; body : json }.

(** The body of line 175. *)
Definition report_body (apk_hash : string) (result : gmap string value)
  : json :=
  jsonify (VDict (<["parsed_report" := VDict result]>
                  (<["hash" := VStr apk_hash]> ∅))).

Definition error_body (msg : string) : json :=
  jsonify (VDict (<["error" := VStr msg]> ∅)).

(** [os.path.join(a, b)] on a POSIX system. *)
Definition path_join (a b : string) : string :=
  if String.prefix "/" b then b
  else if is_empty a || String.prefix "/" (String.rev a) then a +:+ b
  else a +:+ "/" +:+ b.

Section Handler.

(** The directory of the reports (line 9). *)
Variable REPORTS_DIR : string.

(** [BeautifulSoup(f, "html.parser")] on the text of a file. *)
Variable BeautifulSoup : string → M soup.

(** [malware_scrape()] (lines 111 to 175).  [args] is the query
    string, [files] the paths that exist. *)
Definition malware_scrape (args : gmap string string)
    (files : gmap string entry) : M response :=
  match args !! "hash" with
  | None | Some EmptyString =>
      ret (Response 400 (error_body "hash query parameter is required"))
  | Some apk_hash =>
      let html_file :=
        path_join REPORTS_DIR (apk_hash +:+ "_static_analyzer.html") in
      if negb (path_exists files html_file) then
        ret (Response 404
               (error_body "Static analyzer HTML report not found"))
      else
        let! text := open_read files html_file in
        let! doc := BeautifulSoup text in
        let! result := parsed_report doc in
        ret (Response 200 (report_body apk_hash result))
  end.

End Handler.

End App.

(** ** The words of the specification *)

Module Spec.
Import PyStr Soup Py App.

(** Section locator: the anchor named [anchorId], then the nearest
    following element of the requested kind. *)
Definition locate (doc : soup) (anchorId kind : string) : option element :=
  match find_by_id doc "a" anchorId with
  | None => None
  | Some anchor => find_next anchor kind
  end.

(** The six keys of the report. *)
Definition report_keys : gset string :=
  {[ "malware_lookup"; "apkid_analysis"; "behaviour_analysis";
     "domain_malware_check"; "urls"; "emails" ]}.

(** The sections that hold a table: key of the report, anchor. *)
Definition table_sections : list (string * string) :=
  [ ("apkid_analysis", "apkid"); ("behaviour_analysis", "behaviour");
    ("domain_malware_check", "malware_check"); ("urls", "urls");
    ("emails", "emails") ].

(** The record a row contributes, if any. *)
Definition emitted_record (headers : list string) (tr : node)
  : option (gmap string string) :=
  match row_cols tr with
  | [] => None
  | cols => Some (dict (zip headers cols))
  end.

(** The keywords in their fixed order, each with the key it assigns. *)
Definition keywords : list (string * string) :=
  [ ("virustotal", "virustotal"); ("triage", "triage");
    ("metadefender", "metadefender"); ("hybrid", "hybrid_analysis") ].

(** The key of the first keyword the text contains. *)
Definition classify (text : string) : option string :=
  snd <$> List.find (λ kw, contains kw.1 text) keywords.

(** The URLs the links assign to [key], in document order. *)
Definition urls_for (key : string) (links : list node) : list string :=
  omap (λ link,
          if bool_decide (classify (link_text link) = Some key)
          then get_attr link "href" else None) links.

(** The links of the malware-lookup container, if it is located. *)
Definition lookup_links (doc : soup) : list node :=
  match locate doc "malware_lookup" "section" with
  | None => []
  | Some container => find_all_href (el_node container) "a"
  end.

(** The rows of the table of a section, if it is located. *)
Definition section_rows (doc : soup) (anchorId : string)
  : list (gmap string string) :=
  match locate doc anchorId "table" with
  | None => []
  | Some table => table_rows (el_node table)
  end.

(** The field names the specification describes: the header cells of
    the first row only. *)
Definition first_row_field_names (table : node) : list string :=
  match find_all table "tr" with
  | [] => []
  | tr :: _ => (λ h, lower (get_text "" h)) <$> find_all tr "th"
  end.

(** The row has at least one data cell. *)
Definition has_cells (tr : node) : Prop := row_cols tr ≠ [].

(** Two whitespace characters in a row somewhere in [s]. *)
Fixpoint has_whitespace_run (s : string) : bool :=
  match s with
  | String c ((String c' _) as s') =>
      (isspace c && isspace c') || has_whitespace_run s'
  | _ => false
  end.

(** A string with no whitespace at its start, and one with none at its
    end: together, a trimmed string. *)
Definition starts_clean (s : string) : bool :=
  match s with
  | EmptyString => true
  | String c _ => negb (isspace c)
  end.

Fixpoint ends_clean (s : string) : bool :=
  match s with
  | EmptyString => true
  | String c EmptyString => negb (isspace c)
  | String _ s' => ends_clean s'
  end.

Definition trimmed (s : string) : Prop :=
  starts_clean s = true ∧ ends_clean s = true.

(** What one link does to the lookup dictionary, and what a sequence of
    links does to the empty one. *)
Definition assign (m : gmap string value) (link : node)
  : gmap string value :=
  match classify (link_text link), get_attr link "href" with
  | Some key, Some href => <[key := VStr href]> m
  | _, _ => m
  end.

Definition lookup_map (links : list node) : gmap string value :=
  foldl assign ∅ links.

(** The report of a document: the lookup dictionary of its links and
    the rows of its five tables. *)
Definition expected_report (doc : soup) : gmap string value :=
  <["emails" := of_rows (section_rows doc "emails")]>
  (<["urls" := of_rows (section_rows doc "urls")]>
  (<["domain_malware_check" := of_rows (section_rows doc "malware_check")]>
  (<["behaviour_analysis" := of_rows (section_rows doc "behaviour")]>
  (<["apkid_analysis" := of_rows (section_rows doc "apkid")]>
  (<["malware_lookup" := VDict (lookup_map (lookup_links doc))]> ∅))))).

(** Extraction run twice on one document. *)
Definition extract_twice (doc : soup)
  : M (gmap string value * gmap string value) :=
  let! first := parsed_report doc in
  let! second := parsed_report doc in
  ret (first, second).

End Spec.

(** ** Documents used in the examples *)

Module Examples.
Import Soup.

Definition text (s : string) : node := NavigableString s.
Definition tag (name : string) (contents : list node) : node :=
  Tag name ∅ contents.
Definition anchor (id : string) : node := Tag "a" {[ "id" := id ]} [].
Definition link (href label : string) : node :=
  Tag "a" {[ "href" := href ]} [text label].

(** [<a id="urls"></a><table><tr><th>URL</th></tr>
     <tr><td> http://x.test </td></tr></table>] *)
Definition minimal_doc : soup :=
  [ anchor "urls";
    tag "table" [ tag "tr" [ tag "th" [ text "URL" ] ];
                  tag "tr" [ tag "td" [ text " http://x.test " ] ] ] ].

(** [<table><tr><th>Name</th></tr>
     <tr><th>Kind</th><td>x</td><td>y</td></tr></table>] *)
Definition late_header_table : node :=
  tag "table" [ tag "tr" [ tag "th" [ text "Name" ] ];
                tag "tr" [ tag "th" [ text "Kind" ];
                           tag "td" [ text "x" ];
                           tag "td" [ text "y" ] ] ].

(** [<td>a  b</td>], two spaces between the letters. *)
Definition spaced_cell : node := tag "td" [ text "a  b" ].

(** [<tr><td>1</td><td>2</td><td>3</td></tr>] *)
Definition three_cells : node :=
  tag "tr" [ tag "td" [ text "1" ]; tag "td" [ text "2" ];
             tag "td" [ text "3" ] ].

(** [<tr><td>a  b</td></tr>] *)
Definition spaced_row : node := tag "tr" [ spaced_cell ].

(** [<tr><th>Name</th></tr>] *)
Definition header_row : node := tag "tr" [ tag "th" [ text "Name" ] ].

(** [<table><tr><td>k</td></tr><tr><td>1</td><td>2</td><td>3</td></tr>
     <tr></tr><tr><td>1</td><td>2</td><td>3</td></tr></table>] *)
Definition headerless_table : node :=
  tag "table" [ tag "tr" [ tag "td" [ text "k" ] ];
                three_cells; tag "tr" []; three_cells ].


(** Modelled from the library: what [BeautifulSoup(text, "html.parser")]
    returns for a text without markup, the empty document for the empty
    text and one string otherwise.  It is used on such texts only. *)
Definition lenient_loader (text : string) : Py.M soup :=
  Py.ret (if PyStr.is_empty text then [] else [NavigableString text]).

(** [<a id="urls"></a><table><tr><th>A</th><th>B</th></tr>
     <tr><td>1</td><td>2</td><td>3</td></tr><tr><td>4</td></tr></table>] *)
Definition one_cell : node := tag "tr" [ tag "td" [ text "4" ] ].

Definition ragged_doc : soup :=
  [ anchor "urls";
    tag "table" [ tag "tr" [ tag "th" [ text "A" ]; tag "th" [ text "B" ] ];
                  three_cells; one_cell ] ].

End Examples.

(** ** The other handlers *)

Module Service.
Import PyStr Py App.

Section Data.

(** The numbers of a JSON file ([int] or [float]), and the test Python
    makes on one in a condition. *)
Variable number : Type.
Variable nonzero : number → bool.

(** What [json.load] returns; [DNull] is [None]. *)
#[warnings="-register-all"]
Inductive data :=
| DNull
| DBool (b : bool)
| DNumber (n : number)
| DString (s : string)
| DArray (l : list data)
| DObject (o : gmap string data).

(** The truth value of [d] in [if d] and [if not d]. *)
Definition truthy (d : data) : bool :=
  match d with
  | DNull => false
  | DBool b => b
  | DNumber n => nonzero n
  | DString s => negb (is_empty s)
  | DArray l => negb (Nat.eqb (length l) 0)
  | DObject o => negb (Nat.eqb (size o) 0)
  end.

(** What a view function returns: a status with the value given to
    [jsonify], or the file handed to [send_file]. *)
Inductive reply :=
| JsonReply (status : Z) (payload : data)
| FileReply (path mimetype : string).

(** [{"error": msg}] *)
Definition error_payload (msg : string) : data :=
  DObject (<["error" := DString msg]> ∅).

(** The directory of the reports (line 9). *)
Variable REPORTS_DIR : string.

(** [json.load(f)] on the text of a file. *)
Variable json_load : string → M data.

(** [load_json_file(filename)] (lines 16 to 22).  [files] is the paths
    that exist. *)
Definition load_json_file (files : gmap string entry) (filename : string)
  : M data :=
  let path := path_join REPORTS_DIR filename in
  if negb (path_exists files path) then ret DNull
  else
    let! text := open_read files path in
    json_load text.

(** [get_report()] (lines 73 to 82). *)
Definition get_report (args : gmap string string)
    (files : gmap string entry) : M reply :=
  match args !! "file" with
  | None | Some EmptyString =>
      ret (JsonReply 400 (error_payload "file query parameter is required"))
  | Some filename =>
      let! data := load_json_file files filename in
      if negb (truthy data) then
        ret (JsonReply 404
               (error_payload ("Report '" +:+ filename +:+ "' not found")))
      else ret (JsonReply 200 data)
  end.

(** The file names of line 87. *)
Definition filenames : list string :=
  ["scan_response.json"; "scan_logs.json"; "scorecard.json"].

(** The body of the loop of lines 90 to 93. *)
Definition aggregate_step (files : gmap string entry)
    (aggregated : gmap string data) (fn : string) : M (gmap string data) :=
  let! data := load_json_file files fn in
  if truthy data then ret (<[fn := data]> aggregated) else ret aggregated.

(** [compiled_reports()] (lines 86 to 98). *)
Definition compiled_reports (files : gmap string entry) : M reply :=
  let! aggregated := for_each (aggregate_step files) ∅ filenames in
  if Nat.eqb (size aggregated) 0 then
    ret (JsonReply 404 (error_payload "No reports found"))
  else ret (JsonReply 200 (DObject aggregated)).

(** [scorecard()] (lines 102 to 107). *)
Definition scorecard (files : gmap string entry) : M reply :=
  let! data := load_json_file files "scorecard.json" in
  if negb (truthy data) then
    ret (JsonReply 404 (error_payload "scorecard.json not found"))
  else ret (JsonReply 200 data).

(** [report_pdf()] (lines 179 to 188). *)
Definition report_pdf (args : gmap string string)
    (files : gmap string entry) : reply :=
  match args !! "hash" with
  | None | Some EmptyString =>
      JsonReply 400 (error_payload "hash query parameter is required")
  | Some apk_hash =>
      let pdf_path := path_join REPORTS_DIR (apk_hash +:+ "_report.pdf") in
      if negb (path_exists files pdf_path) then
        JsonReply 404 (error_payload "PDF not found")
      else FileReply pdf_path "application/pdf"
  end.

End Data.

Arguments DNull {number}.
Arguments DBool {number} b.
Arguments DNumber {number} n.
Arguments DString {number} s.
Arguments DArray {number} l.
Arguments DObject {number} o.
Arguments JsonReply {number} status payload.
Arguments FileReply {number} path mimetype.
Arguments error_payload {number} msg.

End Service.

(** ** Notions used to state the further properties *)

Module Notions.
Import PyStr Soup Py App Spec.

(** The test [soup.find("a", {"id": v})] makes on a node. *)
Definition is_anchor (v : string) (n : node) : bool :=
  has_name "a" n && bool_decide (get_attr n "id" = Some v).

(** The keys of the lookup services. *)
Definition service_keys : gset string :=
  {[ "virustotal"; "triage"; "metadefender"; "hybrid_analysis" ]}.

(** The parameter is missing from the query string, or empty. *)
Definition absent (args : gmap string string) (k : string) : Prop :=
  args !! k = None ∨ args !! k = Some "".

(** A loader for the examples: the text ["{}"] is an empty object, the
    text ["[1]"] a list of one number, any other text fails to decode. *)
Definition tiny_loader (text : string) : M (Service.data Z) :=
  if String.eqb text "{}" then ret (Service.DObject ∅)
  else if String.eqb text "[1]" then ret (Service.DArray [Service.DNumber 1])
  else raise ParseError.

Definition nonzeroZ (z : Z) : bool := negb (z =? 0).

(** [<a id="urls"></a><a id="emails"></a>
     <table><tr><th>Mail</th></tr><tr><td>x@y.test</td></tr></table>]:
    the section of the URLs has no table of its own. *)
Definition shared_table_doc : soup :=
  [ Examples.anchor "urls"; Examples.anchor "emails";
    Examples.tag "table"
      [ Examples.tag "tr" [ Examples.tag "th" [ Examples.text "Mail" ] ];
        Examples.tag "tr" [ Examples.tag "td" [ Examples.text "x@y.test" ] ] ] ].

(** [<tr><td>1<table><tr><td>2</td></tr></table></td></tr>]: a row with
    a table in its cell, and the row of that table. *)
Definition inner_row : node :=
  Examples.tag "tr" [ Examples.tag "td" [ Examples.text "2" ] ].

Definition outer_row : node :=
  Examples.tag "tr"
    [ Examples.tag "td" [ Examples.text "1"; Examples.tag "table" [ inner_row ] ] ].

End Notions.

(** ** Properties *)

Import PyStr Soup Py App Spec.

(** *** Strings *)

Lemma isspace_lower_char c : isspace (lower_char c) = isspace c.
Proof. by destruct c as [[] [] [] [] [] [] [] []]. Qed.

Lemma lstrip_starts_clean s : starts_clean (lstrip s) = true.
Proof.
  induction s as [|c s IH]; simpl; [done|].
  destruct (isspace c) eqn:Hc; [done|]. simpl. by rewrite Hc.
Qed.

Lemma rstrip_ends_clean s : ends_clean (rstrip s) = true.
Proof.
  induction s as [|c s IH]; simpl; [done|].
  destruct (isspace c) eqn:Hc; simpl.
  - destruct (rstrip s) eqn:Hr; simpl in *; done.
  - destruct (rstrip s) eqn:Hr; simpl in *; [by rewrite Hc | done].
Qed.

Lemma lstrip_ends_clean s : ends_clean s = true → ends_clean (lstrip s) = true.
Proof.
  induction s as [|c s IH]; [done|].
  intros H. cbn [lstrip]. destruct (isspace c) eqn:Hc; [|exact H].
  apply IH. destruct s; [done | exact H].
Qed.

Lemma lstrip_id s : starts_clean s = true → lstrip s = s.
Proof. destruct s as [|c s]; simpl; [done|]. intros H. by destruct (isspace c). Qed.

Lemma rstrip_id s : ends_clean s = true → rstrip s = s.
Proof.
  induction s as [|c s IH]; simpl; [done|].
  intros H. destruct s as [|c' s].
  - simpl. by destruct (isspace c).
  - rewrite IH by exact H. simpl. by rewrite andb_false_r.
Qed.

Lemma strip_trimmed s : trimmed (strip s).
Proof.
  split; [apply lstrip_starts_clean|].
  apply lstrip_ends_clean, rstrip_ends_clean.
Qed.

Lemma trimmed_strip s : trimmed s → strip s = s.
Proof. intros [H1 H2]. unfold strip. by rewrite rstrip_id, lstrip_id. Qed.

Lemma starts_clean_app a b :
  is_empty a = false → starts_clean (a +:+ b) = starts_clean a.
Proof. by destruct a. Qed.

Lemma is_empty_app a b : is_empty a = false → is_empty (a +:+ b) = false.
Proof. by destruct a. Qed.

Lemma is_empty_app_r a b : is_empty b = false → is_empty (a +:+ b) = false.
Proof. by destruct a, b. Qed.

Lemma ends_clean_app a b :
  is_empty b = false → ends_clean (a +:+ b) = ends_clean b.
Proof.
  intros Hb. induction a as [|c a IH]; [done|].
  pose proof (is_empty_app_r a b Hb) as Hab.
  change (String c a +:+ b) with (String c (a +:+ b)).
  cbn [ends_clean]. rewrite IH. by destruct (a +:+ b).
Qed.

(** A join of trimmed, non-empty fragments is trimmed, whatever the
    separator. *)
Lemma join_trimmed sep l :
  Forall (λ s, trimmed s ∧ is_empty s = false) l → trimmed (join sep l).
Proof.
  induction 1 as [|s l [[Hs He] Hne] Hl IH]; [done|].
  destruct l as [|s' l]; [done|].
  change (join sep (s :: s' :: l)) with (s +:+ sep +:+ join sep (s' :: l)).
  assert (is_empty (join sep (s' :: l)) = false) as Hj.
  { inversion Hl as [|? ? [_ Hs'] _]; subst.
    destruct l; simpl; [done | by apply is_empty_app]. }
  split.
  - by rewrite starts_clean_app.
  - rewrite ends_clean_app.
    + rewrite ends_clean_app by done. apply IH.
    + destruct sep; simpl; [done | done].
Qed.

Lemma lower_starts_clean s : starts_clean (lower s) = starts_clean s.
Proof. destruct s; simpl; [done|]. by rewrite isspace_lower_char. Qed.

Lemma lower_ends_clean s : ends_clean (lower s) = ends_clean s.
Proof.
  induction s as [|c s IH]; [done|].
  simpl. rewrite IH. destruct s; simpl; [|done].
  by rewrite isspace_lower_char.
Qed.

Lemma lower_trimmed s : trimmed s → trimmed (lower s).
Proof.
  intros [H1 H2]. split; [by rewrite lower_starts_clean|].
  by rewrite lower_ends_clean.
Qed.

Lemma stripped_strings_trimmed n :
  Forall (λ s, trimmed s ∧ is_empty s = false) (stripped_strings n).
Proof.
  unfold stripped_strings. induction (descendants n) as [|d l IH]; [done|].
  simpl. destruct d as [s|]; [|exact IH].
  simpl. destruct (is_empty (strip s)) eqn:He; [exact IH|].
  constructor; [|exact IH]. split; [apply strip_trimmed | done].
Qed.

Lemma get_text_trimmed sep n : trimmed (get_text sep n).
Proof. apply join_trimmed, stripped_strings_trimmed. Qed.

(** The text of a tag that holds one string is that string, stripped. *)
Lemma get_text_single sep name attrs s :
  get_text sep (Tag name attrs [NavigableString s]) = strip s.
Proof.
  unfold get_text, stripped_strings. simpl.
  by destruct (strip s).
Qed.

(** *** Dictionaries *)

Lemma dict_snoc l k v : dict (l ++ [(k, v)]) = <[k := v]> (dict l).
Proof. unfold dict. by rewrite foldl_app. Qed.

Lemma dom_dict l : dom (dict l) = list_to_set l.*1.
Proof.
  induction l as [|[k v] l IH] using rev_ind; [done|].
  rewrite dict_snoc, dom_insert_L, IH, fmap_app, list_to_set_app_L.
  simpl. by rewrite (right_id_L ∅ (∪)), (comm_L (∪)).
Qed.

(** The value under a key is the one paired with its last occurrence. *)
Lemma dict_lookup_last l (i : nat) k v :
  l !! i = Some (k, v) → k ∉ (drop (S i) l).*1 → dict l !! k = Some v.
Proof.
  revert i. induction l as [|[k' v'] l IH] using rev_ind; intros i Hi Hlast.
  { done. }
  rewrite dict_snoc.
  destruct (decide (i < length l)%nat) as [Hlt|Hge].
  - rewrite lookup_app_l in Hi by done.
    rewrite drop_app_le, fmap_app in Hlast by lia.
    apply not_elem_of_app in Hlast as [Hl Hk].
    rewrite lookup_insert_ne by set_solver. by apply (IH i).
  - apply lookup_lt_Some in Hi as Hlen. rewrite length_app in Hlen.
    simpl in Hlen. assert (i = length l) as -> by lia.
    rewrite list_lookup_middle in Hi by done.
    injection Hi as -> ->. apply lookup_insert_eq.
Qed.

Lemma zip_fst_take (hs cs : list string) :
  (zip hs cs).*1 = take (length cs) hs.
Proof.
  revert cs. induction hs as [|h hs IH]; intros [|c cs]; simpl; try done.
  by rewrite IH.
Qed.

Lemma zip_take_min (hs cs : list string) :
  zip hs cs
  = zip (take (Nat.min (length hs) (length cs)) hs)
        (take (Nat.min (length hs) (length cs)) cs).
Proof.
  revert cs. induction hs as [|h hs IH]; intros [|c cs]; simpl; try done.
  by rewrite <- IH.
Qed.

Lemma take_min_length (hs cs : list string) :
  take (Nat.min (length hs) (length cs)) hs = take (length cs) hs.
Proof.
  destruct (decide (length hs ≤ length cs)%nat).
  - rewrite Nat.min_l by done. by rewrite !take_ge by lia.
  - by rewrite Nat.min_r by lia.
Qed.

(** *** The loop over the rows *)

Lemma append_row_emitted headers rows tr :
  append_row headers rows tr
  = (rows ++ option_list (emitted_record headers tr))%list.
Proof.
  unfold append_row, emitted_record.
  destruct (row_cols tr); simpl; [by rewrite app_nil_r | done].
Qed.

Lemma foldl_append_row headers rows trs :
  foldl (append_row headers) rows trs
  = (rows ++ omap (emitted_record headers) trs)%list.
Proof.
  revert rows. induction trs as [|tr trs IH]; intros rows; simpl.
  { by rewrite app_nil_r. }
  rewrite IH, append_row_emitted.
  destruct (emitted_record headers tr); simpl; [|by rewrite app_nil_r].
  by rewrite <- app_assoc.
Qed.

Lemma collect_rows_omap headers trs :
  collect_rows headers trs = omap (emitted_record headers) trs.
Proof. apply foldl_append_row. Qed.

Lemma collect_rows_app headers trs1 trs2 :
  collect_rows headers (trs1 ++ trs2)%list
  = (collect_rows headers trs1 ++ collect_rows headers trs2)%list.
Proof. rewrite !collect_rows_omap. apply omap_app. Qed.

Lemma collect_rows_length headers trs :
  length (collect_rows headers trs) = length (filter has_cells trs).
Proof.
  rewrite collect_rows_omap.
  induction trs as [|tr trs IH]; [done|].
  simpl. rewrite filter_cons.
  destruct (decide (has_cells tr)) as [H|H];
    unfold has_cells in H; unfold emitted_record at 1;
    destruct (row_cols tr); try done; try (exfalso; by apply H); simpl;
    first [exact IH | f_equal; exact IH].
Qed.

Lemma collect_rows_no_headers trs :
  collect_rows [] trs = replicate (length (filter has_cells trs)) ∅.
Proof.
  rewrite collect_rows_omap.
  induction trs as [|tr trs IH]; [done|].
  simpl. rewrite filter_cons.
  destruct (decide (has_cells tr)) as [H|H];
    unfold has_cells in H; unfold emitted_record at 1;
    destruct (row_cols tr); try done; try (exfalso; by apply H); simpl;
    first [exact IH | f_equal; exact IH].
Qed.

Lemma emitted_record_dom headers tr record :
  emitted_record headers tr = Some record →
  dom record = list_to_set (take (length (row_cols tr)) headers).
Proof.
  unfold emitted_record. destruct (row_cols tr) as [|c cols] eqn:E; [done|].
  intros [= <-]. by rewrite dom_dict, zip_fst_take.
Qed.

(** *** The table path *)

(** C4, as the code has it: the field names of a located table come from
    every header cell below the table, whatever row holds it, in document
    order; each name is the lowercased concatenation of the stripped text
    fragments of its cell, so it carries no surrounding whitespace, and
    for a cell that holds one string it is that string stripped and
    lowercased.  Every key of an emitted record is one of these names. *)
Theorem field_names_from_every_header_cell (table : node) :
  table_headers table
  = (λ h, lower (join "" (stripped_strings h)))
      <$> filter (λ d, has_name "th" d = true) (descendants table)
  ∧ Forall trimmed (table_headers table)
  ∧ Forall (λ record, dom record ⊆ list_to_set (table_headers table))
           (table_rows table)
  ∧ ∀ attrs s,
      table_headers (Tag "table" ∅ [Tag "tr" ∅ [Tag "th" attrs [NavigableString s]]])
      = [lower (strip s)].
Proof.
  split_and!.
  - done.
  - unfold table_headers. apply Forall_fmap, Forall_forall. intros h _.
    apply lower_trimmed, get_text_trimmed.
  - unfold table_rows. cbv zeta. rewrite collect_rows_omap.
    apply Forall_forall. intros record Hin.
    apply list_elem_of_omap in Hin as (tr & _ & Hrec).
    rewrite (emitted_record_dom _ _ _ Hrec).
    intros k Hk. apply elem_of_list_to_set in Hk.
    apply elem_of_list_to_set. revert Hk. apply subseteq_take.
  - intros attrs s. cbv -[lower strip get_text].
    by rewrite get_text_single.
Qed.

(** C4, as stated, fails: a header cell of the second row names a field. *)
Lemma late_header_cell_names_a_field :
  table_headers Examples.late_header_table = ["name"; "kind"]
  ∧ first_row_field_names Examples.late_header_table = ["name"]
  ∧ table_rows Examples.late_header_table
    = [ {[ "name" := "x"; "kind" := "y" ]} ]
  ∧ table_headers Examples.late_header_table
    ≠ first_row_field_names Examples.late_header_table.
Proof. split_and!; [by vm_compute..|]. by vm_compute. Qed.

(** C5: every row after the first of a located table that has a data
    cell yields one record of the section, at the place of the row among
    the rows that have cells.  The record is built from the first [n]
    header names and the first [n] cells, [n] the smaller of the two
    counts: with fewer cells than headers the keys are the first names
    only, with more cells the extra cells are dropped.  Each of these
    names holds the cell at its position, unless the name occurs again
    later among them. *)
Theorem row_pairs_shorter_of_headers_and_cells
    (doc : soup) (anchorId : string) (table : element)
    (pre post : list node) (tr : node) :
  locate doc anchorId "table" = Some table →
  drop 1 (find_all (el_node table) "tr") = (pre ++ tr :: post)%list →
  has_cells tr →
  let headers := table_headers (el_node table) in
  let cols := row_cols tr in
  let n := Nat.min (length headers) (length cols) in
  ∃ record,
    extract_table doc anchorId
    = (collect_rows headers pre ++ record :: collect_rows headers post)%list
    ∧ extract_table doc anchorId !! length (filter has_cells pre)
      = Some record
    ∧ record = dict (zip (take n headers) (take n cols))
    ∧ dom record = list_to_set (take n headers)
    ∧ ∀ (i : nat) h c,
        headers !! i = Some h → cols !! i = Some c →
        h ∉ drop (S i) (take n headers) →
        record !! h = Some c.
Proof.
  intros Hloc Hrows Hcells headers cols n.
  exists (dict (zip headers cols)).
  assert (extract_table doc anchorId
          = (collect_rows headers pre
             ++ dict (zip headers cols) :: collect_rows headers post)%list)
    as Hextract.
  { unfold extract_table. unfold locate in Hloc.
    destruct (find_by_id doc "a" anchorId) as [anchor|]; [|done].
    rewrite Hloc. unfold table_rows. cbv zeta. rewrite Hrows.
    change (table_headers (el_node table)) with headers.
    rewrite (collect_rows_app headers pre (tr :: post)). f_equal.
    rewrite !collect_rows_omap. simpl. unfold emitted_record at 1.
    fold cols. unfold has_cells in Hcells. fold cols in Hcells.
    by destruct cols. }
  split_and!.
  - exact Hextract.
  - rewrite Hextract, <- (collect_rows_length headers pre).
    by rewrite list_lookup_middle.
  - unfold n. by rewrite <- zip_take_min.
  - unfold n. by rewrite dom_dict, zip_fst_take, take_min_length.
  - intros i h c Hh Hc Hlast. apply (dict_lookup_last _ i).
    + apply lookup_zip_with_Some. eauto.
    + rewrite fmap_drop, zip_fst_take. unfold n in Hlast.
      by rewrite take_min_length in Hlast.
Qed.

Lemma row_pairs_shorter_of_headers_and_cells_witness :
  ∃ table,
    locate Examples.ragged_doc "urls" "table" = Some table
    ∧ drop 1 (find_all (el_node table) "tr")
      = [Examples.three_cells; Examples.one_cell]
    ∧ has_cells Examples.three_cells
    ∧ extract_table Examples.ragged_doc "urls"
      = [ {[ "a" := "1"; "b" := "2" ]}; {[ "a" := "4" ]} ].
Proof.
  eexists. split; [vm_compute; reflexivity|].
  assert (has_cells Examples.three_cells) as Hcells by (by vm_compute).
  split; [vm_compute; reflexivity|]. split; [exact Hcells|].
  destruct (row_pairs_shorter_of_headers_and_cells
              Examples.ragged_doc "urls" _ [] [Examples.one_cell]
              Examples.three_cells eq_refl eq_refl Hcells)
    as (record & -> & _ & -> & _).
  vm_compute. reflexivity.
Defined.

(** C8: a row with no data cell leaves no record; the records are those
    of the other rows. *)
Theorem zero_cell_row_omitted (table : node) (pre post : list node) (tr : node) :
  drop 1 (find_all table "tr") = (pre ++ tr :: post)%list →
  row_cols tr = [] →
  table_rows table = collect_rows (table_headers table) (pre ++ post)%list
  ∧ length (table_rows table)
    = length (filter has_cells (pre ++ post)%list).
Proof.
  intros Hrows Hnone.
  assert (table_rows table
          = collect_rows (table_headers table) (pre ++ post)%list) as Heq.
  { unfold table_rows. cbv zeta. rewrite Hrows.
    rewrite (collect_rows_app _ pre (tr :: post)).
    rewrite (collect_rows_app _ pre post).
    f_equal. rewrite !collect_rows_omap. simpl.
    unfold emitted_record at 1. by rewrite Hnone. }
  split; [exact Heq|]. rewrite Heq. apply collect_rows_length.
Qed.

Lemma zero_cell_row_omitted_witness :
  drop 1 (find_all Examples.headerless_table "tr")
  = [Examples.three_cells; Examples.tag "tr" []; Examples.three_cells]
  ∧ row_cols (Examples.tag "tr" []) = []
  ∧ row_cols Examples.header_row = []
  ∧ length (table_rows Examples.headerless_table) = 2%nat.
Proof.
  split_and!; [by vm_compute..|].
  destruct (zero_cell_row_omitted Examples.headerless_table
              [Examples.three_cells] [Examples.three_cells]
              (Examples.tag "tr" [])) as [_ ->]; by vm_compute.
Defined.

(** C10: a table with no header cell yields one empty record for each row
    after the first that has a data cell, and nothing else. *)
Theorem headerless_table_yields_empty_records (table : node) :
  table_headers table = [] →
  table_rows table
  = replicate (length (filter has_cells (drop 1 (find_all table "tr")))) ∅.
Proof.
  intros Hnone. unfold table_rows. rewrite Hnone.
  apply collect_rows_no_headers.
Qed.

Lemma headerless_table_yields_empty_records_witness :
  table_headers Examples.headerless_table = []
  ∧ table_rows Examples.headerless_table = [∅; ∅].
Proof.
  split; [by vm_compute|].
  rewrite (headerless_table_yields_empty_records Examples.headerless_table)
    by (by vm_compute).
  by vm_compute.
Defined.

(** C9, as the code has it: the text of a data cell is made of the text
    fragments below the cell, each stripped, the empty ones left out,
    joined by single spaces; it carries no surrounding whitespace, and for
    a cell that holds one string it is that string stripped, its inner
    whitespace untouched.  The minimal document yields the one record
    [{"url": "http://x.test"}]. *)
Theorem cell_text_joins_stripped_fragments (tr : node) :
  row_cols tr = (λ td, join " " (stripped_strings td)) <$> find_all tr "td"
  ∧ Forall trimmed (row_cols tr)
  ∧ (∀ attrs s, row_cols (Tag "tr" ∅ [Tag "td" attrs [NavigableString s]])
                = [strip s])
  ∧ extract_table Examples.minimal_doc "urls"
    = [ {[ "url" := "http://x.test" ]} ].
Proof.
  split_and!.
  - done.
  - unfold row_cols. apply Forall_fmap, Forall_forall. intros td _.
    apply get_text_trimmed.
  - intros attrs s. cbv -[strip get_text].
    by rewrite get_text_single.
  - by vm_compute.
Qed.

(** C9, as stated, fails: whitespace inside a text fragment is kept. *)
Lemma cell_keeps_inner_whitespace :
  row_cols Examples.spaced_row = ["a  b"]
  ∧ ¬ Forall (λ c, has_whitespace_run c = false)
             (row_cols Examples.spaced_row).
Proof.
  split; [by vm_compute|].
  intros H. apply Forall_inv in H. by vm_compute in H.
Qed.

(** *** The link path *)

Lemma setitem2_dict result k1 k2 v m :
  result !! k1 = Some (VDict m) →
  setitem2 result k1 k2 v = inr (<[k1 := VDict (<[k2 := v]> m)]> result).
Proof. intros H. unfold setitem2, getitem. by rewrite H. Qed.

(** One turn of the loop does what [assign] says. *)
Lemma link_step_assign result m link :
  result !! "malware_lookup" = Some (VDict m) →
  is_Some (get_attr link "href") →
  link_step result link
  = inr (<["malware_lookup" := VDict (assign m link)]> result).
Proof.
  intros Hm [href Hhref].
  unfold link_step, assign, classify, keywords. rewrite Hhref. simpl.
  repeat (destruct (contains _ (link_text link));
          [simpl; by apply setitem2_dict|]).
  simpl. unfold ret. f_equal. symmetry. by apply insert_id.
Qed.

Lemma for_each_link_step base m links :
  Forall (λ link, is_Some (get_attr link "href")) links →
  for_each link_step (<["malware_lookup" := VDict m]> base) links
  = inr (<["malware_lookup" := VDict (foldl assign m links)]> base).
Proof.
  intros Hall. revert m.
  induction Hall as [|link links Hhref _ IH]; intros m; [done|].
  simpl. rewrite (link_step_assign _ m) by (done || apply lookup_insert_eq).
  simpl. rewrite insert_insert_eq. apply IH.
Qed.

Lemma find_all_href_has_href n name :
  Forall (λ link, is_Some (get_attr link "href")) (find_all_href n name).
Proof.
  apply Forall_forall. intros link Hin.
  unfold find_all_href in Hin. by apply list_elem_of_filter in Hin as [[_ ?] _].
Qed.

Lemma malware_lookup_links_initial doc :
  malware_lookup_links doc initial_result
  = inr (<["malware_lookup" := VDict (lookup_map (lookup_links doc))]>
           initial_result).
Proof.
  assert (<["malware_lookup" := VDict ∅]> initial_result = initial_result)
    as Hinit by (by apply insert_id).
  unfold malware_lookup_links, lookup_links, locate.
  destruct (find_by_id doc "a" "malware_lookup") as [anchor|].
  - destruct (find_next anchor "section") as [container|].
    + rewrite <- Hinit at 1.
      rewrite for_each_link_step by apply find_all_href_has_href.
      done.
    + unfold lookup_map. simpl. by rewrite Hinit.
  - unfold lookup_map. simpl. by rewrite Hinit.
Qed.

Lemma extract_table_section_rows doc anchorId :
  extract_table doc anchorId = section_rows doc anchorId.
Proof.
  unfold extract_table, section_rows, locate.
  by destruct (find_by_id doc "a" anchorId).
Qed.

(** The handler's [result] is the expected report, and no exception is
    raised on the way. *)
Lemma parsed_report_expected doc :
  parsed_report doc = inr (expected_report doc).
Proof.
  unfold parsed_report. rewrite malware_lookup_links_initial. simpl.
  rewrite !extract_table_section_rows. unfold ret. f_equal.
Qed.

Lemma report_keys_dom {A} (v0 v1 v2 v3 v4 v5 : A) :
  dom (<["emails" := v5]> (<["urls" := v4]>
       (<["domain_malware_check" := v3]> (<["behaviour_analysis" := v2]>
       (<["apkid_analysis" := v1]>
       (<["malware_lookup" := v0]> (∅ : gmap string A)))))))
  = report_keys.
Proof. rewrite !dom_insert_L, dom_empty_L. reflexivity. Qed.

Lemma lookup_map_snoc links link :
  lookup_map (links ++ [link]) = assign (lookup_map links) link.
Proof. unfold lookup_map. by rewrite foldl_app. Qed.

(** A key holds the URL of the last link classified under it. *)
Lemma lookup_map_last links key :
  lookup_map links !! key = VStr <$> last (urls_for key links).
Proof.
  induction links as [|link links IH] using rev_ind; [done|].
  rewrite lookup_map_snoc. unfold urls_for. rewrite omap_app. simpl.
  fold (urls_for key links). unfold assign.
  destruct (classify (link_text link)) as [k|] eqn:Hk.
  - destruct (get_attr link "href") as [href|] eqn:Hh.
    + destruct (decide (k = key)) as [->|Hne].
      * rewrite bool_decide_eq_true_2 by done.
        by rewrite lookup_insert_eq, last_snoc.
      * rewrite bool_decide_eq_false_2 by congruence.
        rewrite lookup_insert_ne by done. by rewrite app_nil_r.
    + case_bool_decide; by rewrite app_nil_r.
  - rewrite bool_decide_eq_false_2 by done. by rewrite app_nil_r.
Qed.

Lemma expected_report_lookup_links doc :
  expected_report doc !! "malware_lookup"
  = Some (VDict (match locate doc "malware_lookup" "section" with
                 | None => ∅
                 | Some container =>
                     lookup_map (find_all_href (el_node container) "a")
                 end)).
Proof.
  unfold expected_report. rewrite !lookup_insert_ne by done.
  rewrite lookup_insert_eq. unfold lookup_links.
  by destruct (locate doc "malware_lookup" "section").
Qed.

Lemma expected_report_tables doc :
  Forall (λ '(key, anchorId),
            expected_report doc !! key
            = Some (VList (match locate doc anchorId "table" with
                           | None => []
                           | Some table =>
                               of_record <$> table_rows (el_node table)
                           end)))
         table_sections.
Proof.
  unfold table_sections, expected_report.
  repeat constructor;
    rewrite ?lookup_insert_ne by done; rewrite lookup_insert_eq;
    unfold of_rows, section_rows;
    by match goal with |- context [locate ?d ?a ?k] =>
         destruct (locate d a k) end.
Qed.

(** *** The report *)

(** C1: for every document the extraction returns, without raising, a
    dictionary whose keys are exactly the six section keys; the value
    under [malware_lookup] is a dictionary, empty when the anchor or its
    container is not found, and the value under each table key is a list,
    empty when the anchor or its table is not found. *)
Theorem report_has_all_six_keys (doc : soup) :
  ∃ result,
    parsed_report doc = inr result
    ∧ dom result = report_keys
    ∧ result !! "malware_lookup"
      = Some (VDict (match locate doc "malware_lookup" "section" with
                     | None => ∅
                     | Some container =>
                         lookup_map (find_all_href (el_node container) "a")
                     end))
    ∧ Forall (λ '(key, anchorId),
                result !! key
                = Some (VList (match locate doc anchorId "table" with
                               | None => []
                               | Some table =>
                                   of_record <$> table_rows (el_node table)
                               end)))
             table_sections.
Proof.
  exists (expected_report doc). split_and!.
  - apply parsed_report_expected.
  - apply report_keys_dom.
  - apply expected_report_lookup_links.
  - apply expected_report_tables.
Qed.

(** C2: the report is serialized as a JSON object whose keys are exactly
    the six section keys; [malware_lookup] is an object and each table
    section an array, empty when the section is not found, never left out
    and never null.  The handler sends it under the key [parsed_report] of
    its response. *)
Theorem report_serialized_with_six_keys (apk_hash : string) (doc : soup) :
  ∃ result o,
    parsed_report doc = inr result
    ∧ jsonify (VDict result) = JObject o
    ∧ dom o = report_keys
    ∧ o !! "malware_lookup"
      = Some (JObject (match locate doc "malware_lookup" "section" with
                       | None => ∅
                       | Some container =>
                           jsonify <$>
                             lookup_map (find_all_href (el_node container) "a")
                       end))
    ∧ Forall (λ '(key, anchorId),
                o !! key
                = Some (JArray (match locate doc anchorId "table" with
                                | None => []
                                | Some table =>
                                    (λ record, jsonify (of_record record))
                                      <$> table_rows (el_node table)
                                end)))
             table_sections
    ∧ report_body apk_hash result
      = JObject (<["parsed_report" := JObject o]>
                 (<["hash" := JString apk_hash]> ∅)).
Proof.
  exists (expected_report doc), (jsonify <$> expected_report doc). split_and!.
  - apply parsed_report_expected.
  - done.
  - rewrite dom_fmap_L. apply report_keys_dom.
  - rewrite lookup_fmap, expected_report_lookup_links. simpl.
    by destruct (locate doc "malware_lookup" "section").
  - eapply Forall_impl; [apply expected_report_tables|].
    intros [key anchorId] Hkey. rewrite lookup_fmap, Hkey. simpl.
    destruct (locate doc anchorId "table"); [|done].
    by rewrite <- list_fmap_compose.
  - unfold report_body. simpl. by rewrite !fmap_insert, fmap_empty.
Qed.

(** C3, as the code has it: the handler makes no check of its own on
    the text.  Once the request names a report, it fails exactly when
    reading the file raises or the parser raises, with that exception and
    no response at all; every text the parser accepts, the empty text
    included when the parser accepts it, yields the complete report, and
    a missing file is answered with a 404. *)
Theorem handler_fails_only_when_reading_or_parsing_raises
    (REPORTS_DIR : string) (BeautifulSoup : string → M soup)
    (args : gmap string string) (files : gmap string entry)
    (apk_hash : string) :
  args !! "hash" = Some apk_hash →
  apk_hash ≠ "" →
  malware_scrape REPORTS_DIR BeautifulSoup args files
  = match files !! path_join REPORTS_DIR
                     (apk_hash +:+ "_static_analyzer.html") with
    | None =>
        inr (Response 404
               (error_body "Static analyzer HTML report not found"))
    | Some (Unreadable e) => inl e
    | Some (File text) =>
        match BeautifulSoup text with
        | inl e => inl e
        | inr doc =>
            inr (Response 200 (report_body apk_hash (expected_report doc)))
        end
    end.
Proof.
  intros Hhash Hne. unfold malware_scrape, path_exists, open_read.
  rewrite Hhash. destruct apk_hash as [|c h]; [done|].
  destruct (files !! _) as [[text|e]|]; simpl; [|done..].
  destruct (BeautifulSoup text) as [e|doc]; simpl; [done|].
  by rewrite parsed_report_expected.
Qed.

Lemma handler_fails_only_when_reading_or_parsing_raises_witness :
  ({[ "hash" := "abc" ]} : gmap string string) !! "hash" = Some "abc"
  ∧ "abc" ≠ ""
  ∧ malware_scrape "/srv/reports" Examples.lenient_loader
      {[ "hash" := "abc" ]}
      {[ "/srv/reports/abc_static_analyzer.html"
         := Unreadable (OSError "IsADirectoryError") ]}
    = inl (OSError "IsADirectoryError").
Proof.
  split_and!; [done..|].
  rewrite (handler_fails_only_when_reading_or_parsing_raises
             "/srv/reports" Examples.lenient_loader
             {[ "hash" := "abc" ]}
             {[ "/srv/reports/abc_static_analyzer.html"
                := Unreadable (OSError "IsADirectoryError") ]} "abc")
    by done.
  vm_compute. reflexivity.
Defined.

(** C3, as stated, fails: with a parser that reads the empty text as the
    empty document, as [html.parser] does, an empty report file is not an
    error; it is answered 200 with the six empty sections. *)
Lemma empty_text_is_served :
  malware_scrape "/srv/reports" Examples.lenient_loader
    {[ "hash" := "abc" ]}
    {[ "/srv/reports/abc_static_analyzer.html" := File "" ]}
  = inr (Response 200 (report_body "abc" initial_result))
  ∧ malware_scrape "/srv/reports" Examples.lenient_loader
      {[ "hash" := "abc" ]}
      {[ "/srv/reports/abc_static_analyzer.html" := File "" ]}
    ≠ inl ParseError.
Proof.
  assert (malware_scrape "/srv/reports" Examples.lenient_loader
            {[ "hash" := "abc" ]}
            {[ "/srv/reports/abc_static_analyzer.html" := File "" ]}
          = inr (Response 200 (report_body "abc" initial_result))) as H
    by (vm_compute; reflexivity).
  split; [exact H|]. rewrite H. discriminate.
Qed.


(** C7: the records of a table are those of its rows after the first, in
    the order of the rows, one for each row that has a data cell, with no
    reordering and nothing merged; and running the extraction twice on a
    document yields the same report both times. *)
Theorem rows_in_source_order_and_repeatable (table : node) (doc : soup) :
  table_rows table
  = omap (emitted_record (table_headers table))
         (drop 1 (find_all table "tr"))
  ∧ (∀ headers trs1 trs2,
       collect_rows headers (trs1 ++ trs2)%list
       = (collect_rows headers trs1 ++ collect_rows headers trs2)%list)
  ∧ length (table_rows table)
    = length (filter has_cells (drop 1 (find_all table "tr")))
  ∧ ∃ result, extract_twice doc = inr (result, result).
Proof.
  split_and!.
  - apply collect_rows_omap.
  - apply collect_rows_app.
  - apply collect_rows_length.
  - exists (expected_report doc). unfold extract_twice.
    by rewrite parsed_report_expected.
Qed.

(** ** Further properties *)

Import Service Notions.

(** *** The handlers of the JSON reports *)

Section ServiceFacts.

Context {number : Type} (nonzero : number → bool).
Context (REPORTS_DIR : string) (json_load : string → M (data number)).

Local Abbreviation load := (load_json_file number REPORTS_DIR json_load).
Local Abbreviation report :=
  (get_report number nonzero REPORTS_DIR json_load).
Local Abbreviation step :=
  (aggregate_step number nonzero REPORTS_DIR json_load).
Local Abbreviation compiled :=
  (compiled_reports number nonzero REPORTS_DIR json_load).

(** X1: a request to [/report] with no [file] parameter, or an empty
    one, is answered 400; no file is read. *)
Theorem get_report_requires_file (args : gmap string string)
    (files : gmap string entry) :
  absent args "file" →
  report args files
  = inr (JsonReply 400 (error_payload "file query parameter is required")).
Proof. intros [H|H]; unfold get_report; by rewrite H. Qed.

(** Loading a file: nothing when the path does not exist, the exception
    of the reading when it cannot be read, else what decoding gives. *)
Lemma load_json_file_cases (files : gmap string entry) filename :
  load files filename
  = match files !! path_join REPORTS_DIR filename with
    | None => inr DNull
    | Some (File text) => json_load text
    | Some (Unreadable e) => inl e
    end.
Proof.
  unfold load_json_file, path_exists, open_read.
  by destruct (files !! _) as [[text|e]|].
Qed.

Lemma get_report_named (args : gmap string string)
    (files : gmap string entry) filename :
  args !! "file" = Some filename → filename ≠ "" →
  report args files
  = match load files filename with
    | inl e => inl e
    | inr d =>
        if truthy number nonzero d then inr (JsonReply 200 d)
        else inr (JsonReply 404
                    (error_payload ("Report '" +:+ filename +:+ "' not found")))
    end.
Proof.
  intros Hfile Hne. unfold get_report. rewrite Hfile.
  destruct filename as [|c rest]; [done|].
  destruct (load files (String c rest)) as [e|d]; simpl; [done|].
  by destruct (truthy number nonzero d).
Qed.

(** X3: a request to [/report] that names a file is answered 200 exactly
    when the path is a file that can be read, decodes, and its value is
    true in a condition; the body is then that value.  It is answered 404
    when the path does not exist and also when the file holds a value
    that is false in a condition (an empty object or list, [null],
    [false], zero, the empty string).  It raises exactly when the path
    exists but cannot be read (a directory, for instance), with the
    exception of the reading, or when decoding raises. *)
Theorem get_report_answers (args : gmap string string)
    (files : gmap string entry) (filename : string) :
  args !! "file" = Some filename →
  filename ≠ "" →
  let path := path_join REPORTS_DIR filename in
  let not_found :=
    JsonReply 404 (error_payload ("Report '" +:+ filename +:+ "' not found")) in
  (∀ d, report args files = inr (JsonReply 200 d)
        ↔ ∃ text, files !! path = Some (File text) ∧ json_load text = inr d
                  ∧ truthy number nonzero d = true)
  ∧ (report args files = inr not_found
     ↔ files !! path = None
       ∨ ∃ text d, files !! path = Some (File text) ∧ json_load text = inr d
                   ∧ truthy number nonzero d = false)
  ∧ (∀ e, report args files = inl e
          ↔ files !! path = Some (Unreadable e)
            ∨ ∃ text, files !! path = Some (File text)
                      ∧ json_load text = inl e).
Proof.
  intros Hfile Hne path not_found.
  rewrite (get_report_named _ _ _ Hfile Hne), load_json_file_cases.
  fold path. subst not_found.
  destruct (files !! path) as [[text|e0]|].
  - destruct (json_load text) as [e|d] eqn:Hload.
    + split_and!.
      * intros d. split; [done|]. intros (t & [= <-] & Hl & _). congruence.
      * split; [done|]. intros [?|(t & d & [= <-] & Hl & _)]; congruence.
      * intros e'. split.
        -- intros [= ->]. right. eauto.
        -- intros [?|(t & [= <-] & Hl)]; congruence.
    + destruct (truthy number nonzero d) eqn:Ht; split_and!.
      * intros d'. split.
        -- intros [= ->]. eauto.
        -- intros (t & [= <-] & Hl & _). congruence.
      * split; [done|].
        intros [?|(t & d' & [= <-] & Hl & Hf)]; [done|]. congruence.
      * intros e. split; [done|]. intros [?|(t & [= <-] & Hl)]; congruence.
      * intros d'. split; [done|].
        intros (t & [= <-] & Hl & Ht'). congruence.
      * split; [|done]. intros _. right. eauto.
      * intros e. split; [done|]. intros [?|(t & [= <-] & Hl)]; congruence.
  - split_and!.
    + intros d. split; [done|]. by intros (t & ? & _).
    + split; [done|]. intros [?|(t & d & ? & _)]; done.
    + intros e. split.
      * intros [= ->]. by left.
      * intros [[= ->]|(t & ? & _)]; done.
  - split_and!.
    + intros d. split; [done|]. by intros (t & ? & _).
    + split; [by left | done].
    + intros e. split; [done|]. intros [?|(t & ? & _)]; done.
Qed.

(** X6: [/scorecard] answers as [/report?file=scorecard.json] does: the
    same status, the same body when it is 200, the same exception when
    decoding raises. *)
Theorem scorecard_as_get_report (files : gmap string entry) :
  match scorecard number nonzero REPORTS_DIR json_load files,
        report {[ "file" := "scorecard.json" ]} files with
  | inr (JsonReply c1 p1), inr (JsonReply c2 p2) =>
      c1 = c2 ∧ (c1 = 200 → p1 = p2) ∧ (c1 = 200 ∨ c1 = 404)
  | inl e1, inl e2 => e1 = e2
  | _, _ => False
  end.
Proof.
  rewrite (get_report_named _ _ "scorecard.json") by done.
  unfold scorecard.
  destruct (load files "scorecard.json") as [e|d]; simpl; [done|].
  destruct (truthy number nonzero d); simpl; split_and!; auto; done.
Qed.

(** A file is aggregated when it decodes to a value that is true in a
    condition. *)
Lemma for_each_aggregate files (acc : gmap string (data number)) fns :
  Forall (λ fn, ∃ d, load files fn = inr d) fns →
  ∃ agg,
    for_each (step files) acc fns = inr agg
    ∧ ∀ fn d,
        agg !! fn = Some d
        ↔ (fn ∈ fns ∧ load files fn = inr d
           ∧ truthy number nonzero d = true)
          ∨ (¬ (fn ∈ fns ∧ ∃ d', load files fn = inr d'
                              ∧ truthy number nonzero d' = true)
             ∧ acc !! fn = Some d).
Proof.
  intros Hall. revert acc.
  induction Hall as [|fn0 fns [d0 Hd0] _ IH]; intros acc.
  { exists acc. split; [done|]. intros fn d. split.
    - intros H. right. split; [|done]. intros [Hin _]. by apply elem_of_nil in Hin.
    - intros [[Hin _]|[_ H]]; [by apply elem_of_nil in Hin | done]. }
  cbn [for_each]. unfold aggregate_step at 1. rewrite Hd0. cbn [bind].
  destruct (truthy number nonzero d0) eqn:Ht0; cbn [bind ret].
  - destruct (IH (<[fn0 := d0]> acc)) as (agg & Hrun & Hagg).
    exists agg. split; [exact Hrun|]. intros fn d. rewrite Hagg.
    rewrite elem_of_cons. split.
    + intros [(Hin & Hl & Ht)|(Hno & Hacc)]; [by left; auto|].
      destruct (decide (fn = fn0)) as [->|Hne].
      * rewrite lookup_insert_eq in Hacc. injection Hacc as <-. left. auto.
      * rewrite lookup_insert_ne in Hacc by done. right. split; [|done].
        intros [[?|Hin] HQ]; [done|]. apply Hno. auto.
    + intros [([->|Hin] & Hl & Ht)|(Hno & Hacc)].
      * destruct (decide (fn0 ∈ fns)) as [Hin|Hnin]; [left; auto|].
        right. split; [by intros [? _]|].
        rewrite lookup_insert_eq. congruence.
      * left. auto.
      * destruct (decide (fn = fn0)) as [->|Hne].
        -- exfalso. apply Hno. split; [by left|]. eauto.
        -- right. split; [|by rewrite lookup_insert_ne].
           intros [Hin HQ]. apply Hno. auto.
  - destruct (IH acc) as (agg & Hrun & Hagg).
    exists agg. split; [exact Hrun|]. intros fn d. rewrite Hagg.
    rewrite elem_of_cons. split.
    + intros [(Hin & Hl & Ht)|(Hno & Hacc)]; [by left; auto|].
      right. split; [|done]. intros [[->|Hin] (d' & Hl & Ht)].
      * congruence.
      * apply Hno. eauto.
    + intros [([->|Hin] & Hl & Ht)|(Hno & Hacc)].
      * congruence.
      * left. auto.
      * right. split; [|done]. intros [Hin HQ]. apply Hno. auto.
Qed.

Lemma filenames_not_empty fn : fn ∈ filenames → fn ≠ "".
Proof.
  unfold filenames. rewrite !elem_of_cons, elem_of_nil.
  intros [->|[->|[->|[]]]]; done.
Qed.

Lemma get_report_ok_iff files fn d :
  fn ≠ "" →
  report {[ "file" := fn ]} files = inr (JsonReply 200 d)
  ↔ load files fn = inr d ∧ truthy number nonzero d = true.
Proof.
  intros Hne. rewrite (get_report_named _ _ fn) by (done || apply lookup_singleton_eq).
  destruct (load files fn) as [e|d']; [split; [done | by intros [? _]]|].
  destruct (truthy number nonzero d') eqn:Ht.
  - split; [by intros [= ->] | by intros [[= ->] _]].
  - split; [done | intros [[= ->] ?]; congruence].
Qed.

(** X4: when the files that exist decode, [/compiled_reports] answers
    200 with a dictionary that holds, under each of the three file names,
    exactly what [/report] answers with 200 for that name; it holds no
    other key, and when it would be empty the answer is 404. *)
Theorem compiled_reports_collects (files : gmap string entry) :
  Forall (λ fn, ∃ d, load files fn = inr d) filenames →
  ∃ aggregated,
    (∀ fn d,
       aggregated !! fn = Some d
       ↔ fn ∈ filenames
         ∧ report {[ "file" := fn ]} files = inr (JsonReply 200 d))
    ∧ (aggregated = ∅
       ∧ compiled files
         = inr (JsonReply 404 (error_payload "No reports found"))
       ∨ aggregated ≠ ∅
         ∧ compiled files = inr (JsonReply 200 (DObject aggregated))).
Proof.
  intros Hall.
  destruct (for_each_aggregate files ∅ filenames Hall) as (agg & Hrun & Hagg).
  exists agg. split.
  - intros fn d. rewrite Hagg. split.
    + intros [(Hin & Hl & Ht)|(_ & Hemp)]; [|by rewrite lookup_empty in Hemp].
      split; [done|]. apply get_report_ok_iff; [by apply filenames_not_empty|done].
    + intros [Hin Hrep]. left. split; [done|].
      by apply get_report_ok_iff in Hrep; [|apply filenames_not_empty].
  - unfold compiled_reports. rewrite Hrun. cbn [bind].
    destruct (Nat.eqb (size agg) 0) eqn:Hsize.
    + left. split; [|done]. apply Nat.eqb_eq in Hsize.
      by apply map_size_empty_iff.
    + right. split; [|done]. apply Nat.eqb_neq in Hsize.
      by rewrite <- map_size_empty_iff.
Qed.

Lemma for_each_aggregate_fails files (acc : gmap string (data number)) fns fn e :
  fn ∈ fns → load files fn = inl e →
  ∃ e', for_each (step files) acc fns = inl e'.
Proof.
  intros Hin Hfail. revert acc.
  induction fns as [|fn0 fns IH]; intros acc; [by apply elem_of_nil in Hin|].
  cbn [for_each]. unfold aggregate_step at 1.
  destruct (load files fn0) as [e0|d0] eqn:Hl0; cbn [bind]; [eauto|].
  apply elem_of_cons in Hin as [->|Hin]; [congruence|].
  destruct (truthy number nonzero d0); cbn [bind ret]; by apply IH.
Qed.

(** X5: when one of the three files exists and fails to decode,
    [/compiled_reports] raises: the other files are not served. *)
Theorem compiled_reports_fails_with_any_file
    (files : gmap string entry) (fn : string) (e : exn) :
  fn ∈ filenames →
  load files fn = inl e →
  ∃ e', compiled files = inl e'.
Proof.
  intros Hin Hfail. unfold compiled_reports.
  destruct (for_each_aggregate_fails files ∅ filenames fn e Hin Hfail)
    as [e' ->].
  by exists e'.
Qed.

End ServiceFacts.

Lemma get_report_requires_file_witness :
  absent (∅ : gmap string string) "file"
  ∧ get_report Z nonzeroZ "/srv/reports" tiny_loader ∅ ∅
    = inr (JsonReply 400 (error_payload "file query parameter is required")).
Proof.
  split; [by left|].
  apply (get_report_requires_file nonzeroZ "/srv/reports" tiny_loader ∅ ∅).
  by left.
Defined.

Lemma get_report_answers_witness :
  ({[ "file" := "a.json" ]} : gmap string string) !! "file" = Some "a.json"
  ∧ "a.json" ≠ ""
  ∧ get_report Z nonzeroZ "/srv/reports" tiny_loader
      {[ "file" := "a.json" ]} {[ "/srv/reports/a.json" := File "{}" ]}
    = inr (JsonReply 404 (error_payload "Report 'a.json' not found"))
  ∧ get_report Z nonzeroZ "/srv/reports" tiny_loader
      {[ "file" := "a.json" ]}
      {[ "/srv/reports/a.json" := Unreadable (OSError "IsADirectoryError") ]}
    = inl (OSError "IsADirectoryError").
Proof.
  split_and!; [done..| |].
  - apply (get_report_answers nonzeroZ "/srv/reports" tiny_loader
             {[ "file" := "a.json" ]}
             {[ "/srv/reports/a.json" := File "{}" ]} "a.json"); [done..|].
    right. exists "{}", (DObject ∅). by vm_compute.
  - apply (get_report_answers nonzeroZ "/srv/reports" tiny_loader
             {[ "file" := "a.json" ]}
             {[ "/srv/reports/a.json"
                := Unreadable (OSError "IsADirectoryError") ]} "a.json");
      [done..|].
    left. by vm_compute.
Defined.

Lemma compiled_reports_collects_witness :
  Forall (λ fn, ∃ d, load_json_file Z "/srv/reports" tiny_loader
                       {[ "/srv/reports/scorecard.json" := File "[1]" ]} fn
                     = inr d) filenames
  ∧ ∃ aggregated,
      (∀ fn d,
         aggregated !! fn = Some d
         ↔ fn ∈ filenames
           ∧ get_report Z nonzeroZ "/srv/reports" tiny_loader
               {[ "file" := fn ]}
               {[ "/srv/reports/scorecard.json" := File "[1]" ]}
             = inr (JsonReply 200 d))
      ∧ (aggregated = ∅
         ∧ compiled_reports Z nonzeroZ "/srv/reports" tiny_loader
             {[ "/srv/reports/scorecard.json" := File "[1]" ]}
           = inr (JsonReply 404 (error_payload "No reports found"))
         ∨ aggregated ≠ ∅
           ∧ compiled_reports Z nonzeroZ "/srv/reports" tiny_loader
               {[ "/srv/reports/scorecard.json" := File "[1]" ]}
             = inr (JsonReply 200 (DObject aggregated))).
Proof.
  assert (Forall (λ fn, ∃ d, load_json_file Z "/srv/reports" tiny_loader
                               {[ "/srv/reports/scorecard.json" := File "[1]" ]} fn
                             = inr d) filenames) as Hall.
  { repeat constructor; eexists; vm_compute; reflexivity. }
  split; [exact Hall|].
  exact (compiled_reports_collects nonzeroZ "/srv/reports" tiny_loader
           {[ "/srv/reports/scorecard.json" := File "[1]" ]} Hall).
Defined.

Lemma compiled_reports_fails_with_any_file_witness :
  "scan_logs.json" ∈ filenames
  ∧ load_json_file Z "/srv/reports" tiny_loader
      {[ "/srv/reports/scan_logs.json" := File "oops" ]} "scan_logs.json"
    = inl ParseError
  ∧ ∃ e', compiled_reports Z nonzeroZ "/srv/reports" tiny_loader
            {[ "/srv/reports/scan_logs.json" := File "oops" ]}
          = inl e'.
Proof.
  assert ("scan_logs.json" ∈ filenames) as Hin.
  { unfold filenames. apply elem_of_cons. right. apply elem_of_cons. by left. }
  split_and!; [exact Hin | by vm_compute |].
  apply (compiled_reports_fails_with_any_file nonzeroZ "/srv/reports"
           tiny_loader {[ "/srv/reports/scan_logs.json" := File "oops" ]}
           "scan_logs.json" ParseError Hin).
  by vm_compute.
Defined.

(** *** Parameters and paths *)

Lemma prefix_empty s : String.prefix "" s = true.
Proof. by destruct s. Qed.
Lemma prefix_slash_app name suffix :
  String.prefix "/" name = true → String.prefix "/" (name +:+ suffix) = true.
Proof.
  destruct name as [|c rest]; [intros H; discriminate H|].
  change (String c rest +:+ suffix) with (String c (rest +:+ suffix)).
  cbn -[ascii_dec].
  destruct (ascii_dec "/" c); [|done]. intros _. apply prefix_empty.
Qed.
Lemma prefix_slash_app_false name suffix :
  name ≠ "" →
  String.prefix "/" name = false → String.prefix "/" (name +:+ suffix) = false.
Proof.
  destruct name as [|c rest]; [done|]. intros _.
  change (String c rest +:+ suffix) with (String c (rest +:+ suffix)).
  cbn -[ascii_dec].
  destruct (ascii_dec "/" c); [|done]. by rewrite prefix_empty.
Qed.
Lemma prefix_app_self a b : String.prefix a (a +:+ b) = true.
Proof.
  induction a as [|c a IH]; [apply prefix_empty|].
  change (String c a +:+ b) with (String c (a +:+ b)).
  cbn -[ascii_dec]. by destruct (ascii_dec c c).
Qed.

Lemma path_join_absolute dir name :
  String.prefix "/" name = true → path_join dir name = name.
Proof. intros H. unfold path_join. by rewrite H. Qed.

Lemma path_join_relative dir name :
  String.prefix "/" name = false →
  String.prefix dir (path_join dir name) = true.
Proof.
  intros H. unfold path_join. rewrite H.
  destruct (is_empty dir || String.prefix "/" (String.rev dir));
    apply prefix_app_self.
Qed.

Section PathFacts.

Context {number : Type} (nonzero : number → bool).
Context (json_load : string → M (data number)).
Context (BeautifulSoup : string → M soup).

(** X2: a request to [/malware_scrape] or to [/report_pdf] with no
    [hash] parameter, or an empty one, is answered 400; no file is looked
    for and the parser is not called. *)
Theorem hash_parameter_required (REPORTS_DIR : string)
    (args : gmap string string) (files : gmap string entry) :
  absent args "hash" →
  malware_scrape REPORTS_DIR BeautifulSoup args files
  = inr (Response 400 (error_body "hash query parameter is required"))
  ∧ report_pdf number REPORTS_DIR args files
    = JsonReply 400 (error_payload "hash query parameter is required").
Proof.
  intros [H|H]; unfold malware_scrape, report_pdf; by rewrite H.
Qed.

(** X7: a name that starts with a slash is looked up as it is, outside
    the directory of the reports: [/report] reads the file of that very
    path, and for such a name or hash the three handlers answer the same
    whatever the directory of the reports is. *)
Theorem absolute_name_leaves_reports_dir (dir1 dir2 name : string)
    (files : gmap string entry) :
  String.prefix "/" name = true →
  load_json_file number dir1 json_load files name
  = match files !! name with
    | None => inr DNull
    | Some (File text) => json_load text
    | Some (Unreadable e) => inl e
    end
  ∧ get_report number nonzero dir1 json_load {[ "file" := name ]} files
    = get_report number nonzero dir2 json_load {[ "file" := name ]} files
  ∧ malware_scrape dir1 BeautifulSoup {[ "hash" := name ]} files
    = malware_scrape dir2 BeautifulSoup {[ "hash" := name ]} files
  ∧ report_pdf number dir1 {[ "hash" := name ]} files
    = report_pdf number dir2 {[ "hash" := name ]} files.
Proof.
  intros Habs.
  assert (∀ dir suffix, path_join dir (name +:+ suffix) = name +:+ suffix)
    as Hjoin by (intros; by apply path_join_absolute, prefix_slash_app).
  split_and!.
  - rewrite load_json_file_cases. by rewrite path_join_absolute.
  - unfold get_report, load_json_file. rewrite lookup_singleton_eq.
    by rewrite !path_join_absolute.
  - unfold malware_scrape. rewrite lookup_singleton_eq. by rewrite !Hjoin.
  - unfold report_pdf. rewrite lookup_singleton_eq. by rewrite !Hjoin.
Qed.

(** X8: for a name that does not start with a slash, what [/report]
    serves with 200 is the content of a file whose path starts with the
    directory of the reports, and the file [/report_pdf] sends for such a
    hash has a path that starts with it too. *)
Theorem relative_name_stays_under_reports_dir (REPORTS_DIR name : string)
    (files : gmap string entry) :
  name ≠ "" →
  String.prefix "/" name = false →
  (∀ d, get_report number nonzero REPORTS_DIR json_load
          {[ "file" := name ]} files = inr (JsonReply 200 d) →
        ∃ path text,
          String.prefix REPORTS_DIR path = true
          ∧ files !! path = Some (File text) ∧ json_load text = inr d)
  ∧ (∀ path mimetype,
       report_pdf number REPORTS_DIR {[ "hash" := name ]} files
       = FileReply path mimetype →
       String.prefix REPORTS_DIR path = true ∧ is_Some (files !! path)).
Proof.
  intros Hne Hrel. split.
  - intros d Hok.
    apply get_report_ok_iff in Hok as [Hload Ht]; [|done].
    rewrite load_json_file_cases in Hload.
    exists (path_join REPORTS_DIR name).
    destruct (files !! path_join REPORTS_DIR name) as [[text|e]|] eqn:Hfile.
    + exists text. split_and!; [by apply path_join_relative|done..].
    + done.
    + injection Hload as <-. done.
  - intros path mimetype. unfold report_pdf, path_exists.
    rewrite lookup_singleton_eq.
    destruct name as [|c rest]; [done|].
    change (String c rest +:+ "_report.pdf")
      with (String c (rest +:+ "_report.pdf")).
    cbv iota.
    destruct (files !! _) as [content|] eqn:Hfile; [|done].
    intros [= <- _]. split; [|by rewrite Hfile].
    apply path_join_relative.
    change (String c (rest +:+ "_report.pdf"))
      with (String c rest +:+ "_report.pdf").
    by apply prefix_slash_app_false.
Qed.

End PathFacts.

Lemma hash_parameter_required_witness :
  absent ({[ "hash" := "" ]} : gmap string string) "hash"
  ∧ malware_scrape "/srv/reports" Examples.lenient_loader {[ "hash" := "" ]} ∅
    = inr (Response 400 (error_body "hash query parameter is required"))
  ∧ report_pdf Z "/srv/reports" {[ "hash" := "" ]} ∅
    = JsonReply 400 (error_payload "hash query parameter is required").
Proof.
  assert (absent ({[ "hash" := "" ]} : gmap string string) "hash") as Habs
    by (by right).
  split; [exact Habs|].
  exact (hash_parameter_required (number := Z) Examples.lenient_loader
           "/srv/reports" {[ "hash" := "" ]} ∅ Habs).
Defined.

Lemma absolute_name_leaves_reports_dir_witness :
  String.prefix "/" "/etc/x.json" = true
  ∧ load_json_file Z "/srv/reports" tiny_loader
      {[ "/etc/x.json" := File "[1]" ]} "/etc/x.json"
    = inr (DArray [DNumber 1]).
Proof.
  split; [done|].
  destruct (absolute_name_leaves_reports_dir nonzeroZ tiny_loader
              Examples.lenient_loader "/srv/reports" "/tmp" "/etc/x.json"
              {[ "/etc/x.json" := File "[1]" ]}) as [-> _]; [done|].
  by vm_compute.
Defined.

Lemma relative_name_stays_under_reports_dir_witness :
  "abc" ≠ ""
  ∧ String.prefix "/" "abc" = false
  ∧ ∀ path mimetype,
      report_pdf Z "/srv/reports" {[ "hash" := "abc" ]}
        {[ "/srv/reports/abc_report.pdf" := File "%PDF" ]}
      = FileReply path mimetype →
      String.prefix "/srv/reports" path = true
      ∧ is_Some (({[ "/srv/reports/abc_report.pdf" := File "%PDF" ]}
                  : gmap string entry) !! path).
Proof.
  split_and!; [done..|].
  apply (relative_name_stays_under_reports_dir nonzeroZ tiny_loader
           "/srv/reports" "abc"); done.
Defined.

(** *** Where a section is looked for *)

Lemma first_match_app_skip p pre l :
  Forall (λ x, p x = false) pre →
  first_match p (pre ++ l) = first_match p l.
Proof. induction 1 as [|x pre Hx _ IH]; [done|]. simpl. by rewrite Hx. Qed.

Lemma first_match_Some p l n rest :
  first_match p l = Some (Element n rest)
  ↔ ∃ pre, l = (pre ++ n :: rest)%list ∧ Forall (λ x, p x = false) pre
           ∧ p n = true.
Proof.
  split.
  - induction l as [|x l IH]; [done|]. simpl.
    destruct (p x) eqn:Hx.
    + intros [= -> ->]. by exists [].
    + intros H. destruct (IH H) as (pre & -> & Hpre & Hn).
      exists (x :: pre). split_and!; [done|by constructor|done].
  - intros (pre & -> & Hpre & Hn).
    rewrite first_match_app_skip by done. simpl. by rewrite Hn.
Qed.

Lemma first_match_None p l :
  first_match p l = None ↔ Forall (λ x, p x = false) l.
Proof.
  induction l as [|x l IH]; simpl; [done|].
  destruct (p x) eqn:Hx.
  - split; [done|]. intros H. apply Forall_inv in H. congruence.
  - rewrite IH. split; [by constructor | by inversion 1].
Qed.

(** X9: the element used for a section is the first one of the requested
    kind that comes, in document order, after the first anchor of the
    section; elements before the anchor are never used.  Nothing is found
    exactly when there is no such anchor, or none of the kind after it. *)
Theorem locate_first_after_first_anchor
    (doc : soup) (anchorId kind : string) :
  (∀ t rest,
     locate doc anchorId kind = Some (Element t rest)
     ↔ ∃ pre a mid,
         soup_descendants doc = (pre ++ a :: mid ++ t :: rest)%list
         ∧ Forall (λ x, is_anchor anchorId x = false) pre
         ∧ is_anchor anchorId a = true
         ∧ Forall (λ x, has_name kind x = false) mid
         ∧ has_name kind t = true)
  ∧ (locate doc anchorId kind = None
     ↔ Forall (λ x, is_anchor anchorId x = false) (soup_descendants doc)
       ∨ ∃ pre a post,
           soup_descendants doc = (pre ++ a :: post)%list
           ∧ Forall (λ x, is_anchor anchorId x = false) pre
           ∧ is_anchor anchorId a = true
           ∧ Forall (λ x, has_name kind x = false) post).
Proof.
  unfold locate, find_by_id. fold (is_anchor anchorId).
  destruct (first_match (is_anchor anchorId) (soup_descendants doc))
    as [[a post]|] eqn:Hfind.
  - apply first_match_Some in Hfind as (pre & Hdoc & Hpre & Ha).
    assert (∀ pre' a' post',
              soup_descendants doc = (pre' ++ a' :: post')%list →
              Forall (λ x, is_anchor anchorId x = false) pre' →
              is_anchor anchorId a' = true → post' = post) as Huniq.
    { intros pre' a' post' Hdoc' Hpre' Ha'.
      assert (first_match (is_anchor anchorId) (soup_descendants doc)
              = Some (Element a' post')) as H1
        by (apply first_match_Some; eauto).
      assert (first_match (is_anchor anchorId) (soup_descendants doc)
              = Some (Element a post)) as H2
        by (apply first_match_Some; eauto).
      congruence. }
    unfold find_next. cbn [next_elements]. split.
    + intros t rest. rewrite first_match_Some. split.
      * intros (mid & -> & Hmid & Ht). exists pre, a, mid. done.
      * intros (pre' & a' & mid & Hdoc' & Hpre' & Ha' & Hmid & Ht).
        exists mid. split_and!; [|done..].
        symmetry. by apply (Huniq pre' a').
    + rewrite first_match_None. split.
      * intros Hnone. right. exists pre, a, post. done.
      * intros [Hno|(pre' & a' & post' & Hdoc' & Hpre' & Ha' & Hpost)].
        -- rewrite Hdoc in Hno. apply Forall_app in Hno as [_ Hno].
           apply Forall_inv in Hno. congruence.
        -- by rewrite <- (Huniq pre' a' post').
  - apply first_match_None in Hfind. split.
    + intros t rest. split; [done|].
      intros (pre & a & mid & Hdoc & _ & Ha & _).
      rewrite Hdoc in Hfind. apply Forall_app in Hfind as [_ Hfind].
      apply Forall_inv in Hfind. congruence.
    + split; [by left | done].
Qed.

Lemma anchor_is_no_table v n : is_anchor v n = true → has_name "table" n = false.
Proof.
  unfold is_anchor. destruct n as [|name attrs cs]; [done|]. simpl.
  intros H. apply andb_true_iff in H as [H _].
  apply bool_decide_eq_true in H as ->. done.
Qed.

(** X10: a section whose anchor is followed by no table before the
    anchor of another section yields the rows of that other section's
    table: the two sections extract the same records. *)
Theorem section_without_table_takes_the_next
    (doc : soup) (s1 s2 : string) (pre mid rest : list node) (a1 a2 : node) :
  soup_descendants doc = (pre ++ a1 :: mid ++ a2 :: rest)%list →
  Forall (λ x, is_anchor s1 x = false) pre →
  is_anchor s1 a1 = true →
  Forall (λ x, is_anchor s2 x = false) (pre ++ a1 :: mid) →
  is_anchor s2 a2 = true →
  Forall (λ x, has_name "table" x = false) mid →
  extract_table doc s1 = extract_table doc s2.
Proof.
  intros Hdoc Hpre Ha1 Hpre2 Ha2 Hmid.
  unfold extract_table, find_by_id. fold (is_anchor s1) (is_anchor s2).
  assert (first_match (is_anchor s1) (soup_descendants doc)
          = Some (Element a1 (mid ++ a2 :: rest))) as ->
    by (apply first_match_Some; eauto).
  assert (first_match (is_anchor s2) (soup_descendants doc)
          = Some (Element a2 rest)) as ->.
  { apply first_match_Some. exists (pre ++ a1 :: mid)%list.
    split_and!; [|done..]. rewrite Hdoc.
    by rewrite <- app_assoc, <- app_comm_cons. }
  unfold find_next. cbn [next_elements].
  rewrite first_match_app_skip by done. simpl.
  by rewrite (anchor_is_no_table s2 a2 Ha2).
Qed.

Lemma section_without_table_takes_the_next_witness :
  extract_table shared_table_doc "urls" = [ {[ "mail" := "x@y.test" ]} ]
  ∧ extract_table shared_table_doc "urls"
    = extract_table shared_table_doc "emails".
Proof.
  split; [by vm_compute|].
  apply (section_without_table_takes_the_next shared_table_doc
           "urls" "emails" [] [] (drop 2 (soup_descendants shared_table_doc))
           (Examples.anchor "urls") (Examples.anchor "emails"));
    try (by vm_compute); repeat constructor.
Defined.

Lemma find_by_id_wrapper w attrs (doc : soup) v :
  w ≠ "a" → find_by_id [Tag w attrs doc] "a" v = find_by_id doc "a" v.
Proof.
  intros Hw. unfold find_by_id, soup_descendants. simpl.
  rewrite app_nil_r. by rewrite bool_decide_eq_false_2.
Qed.

(** X11: enclosing the whole document in one element that is not an
    [a] leaves the report unchanged. *)
Theorem wrapper_leaves_report_unchanged
    (w : string) (attrs : gmap string string) (doc : soup) :
  w ≠ "a" →
  parsed_report [Tag w attrs doc] = parsed_report doc.
Proof.
  intros Hw.
  unfold parsed_report, malware_lookup_links, extract_table.
  by rewrite !find_by_id_wrapper.
Qed.

Lemma wrapper_leaves_report_unchanged_witness :
  "html" ≠ "a"
  ∧ parsed_report [Tag "html" ∅ Examples.minimal_doc]
    = parsed_report Examples.minimal_doc.
Proof.
  split; [done|].
  by apply (wrapper_leaves_report_unchanged "html" ∅ Examples.minimal_doc).
Defined.

(** *** Records, field names and lookup keys *)

(** X12: when the header names paired with cells are all different, the
    record has one key for each pair and holds every paired cell under
    the name at its position: nothing is overwritten. *)
Theorem distinct_headers_keep_every_cell (headers cols : list string) :
  let n := Nat.min (length headers) (length cols) in
  NoDup (take n headers) →
  size (dict (zip headers cols)) = n
  ∧ ∀ (i : nat) h c,
      headers !! i = Some h → cols !! i = Some c →
      dict (zip headers cols) !! h = Some c.
Proof.
  intros n Hnodup. split.
  - rewrite <- size_dom, dom_dict, zip_fst_take.
    rewrite <- (take_min_length headers cols). fold n.
    rewrite size_list_to_set by done.
    rewrite length_take. unfold n. lia.
  - intros i h c Hh Hc. apply (dict_lookup_last _ i).
    + apply lookup_zip_with_Some. eauto.
    + rewrite fmap_drop, zip_fst_take.
      rewrite <- (take_min_length headers cols). fold n.
      intros Hin. apply list_elem_of_lookup in Hin as [j Hj].
      rewrite lookup_drop in Hj.
      assert (i < n)%nat as Hi.
      { apply lookup_lt_Some in Hh, Hc. unfold n. lia. }
      assert (take n headers !! i = Some h) as Hi'
        by (by rewrite lookup_take_lt).
      pose proof (NoDup_lookup _ _ _ _ Hnodup Hi' Hj). lia.
Qed.

Lemma distinct_headers_keep_every_cell_witness :
  NoDup (take 2 ["a"; "b"; "c"])
  ∧ size (dict (zip ["a"; "b"; "c"] ["1"; "2"])) = 2%nat.
Proof.
  assert (NoDup (take 2 ["a"; "b"; "c"])) as H.
  { simpl. apply NoDup_cons. split; [|apply NoDup_singleton].
    apply not_elem_of_cons. split; [done | apply not_elem_of_nil]. }
  split; [exact H|].
  by destruct (distinct_headers_keep_every_cell ["a"; "b"; "c"] ["1"; "2"] H)
    as [-> _].
Defined.

Lemma classify_service text key :
  classify text = Some key → key ∈ service_keys.
Proof.
  unfold classify, keywords, service_keys. simpl.
  repeat (destruct (contains _ text); [intros [= <-]; set_solver|]).
  done.
Qed.

(** X13: the dictionary under [malware_lookup] never has a key other than
    [virustotal], [triage], [metadefender] and [hybrid_analysis], and
    each of its values is the [href] of an [a] element of the located
    container. *)
Theorem lookup_holds_service_links (doc : soup) :
  ∃ result lookup,
    parsed_report doc = inr result
    ∧ result !! "malware_lookup" = Some (VDict lookup)
    ∧ dom lookup ⊆ service_keys
    ∧ ∀ key v,
        lookup !! key = Some v →
        ∃ link href,
          link ∈ lookup_links doc
          ∧ has_name "a" link = true
          ∧ get_attr link "href" = Some href
          ∧ v = VStr href.
Proof.
  exists (expected_report doc), (lookup_map (lookup_links doc)).
  assert (∀ key v,
            lookup_map (lookup_links doc) !! key = Some v →
            ∃ link href,
              link ∈ lookup_links doc
              ∧ classify (link_text link) = Some key
              ∧ get_attr link "href" = Some href ∧ v = VStr href) as Hsrc.
  { intros key v. rewrite lookup_map_last.
    destruct (last (urls_for key (lookup_links doc))) as [href|] eqn:Hlast;
      [|done].
    intros [= <-]. apply last_Some_elem_of in Hlast.
    apply list_elem_of_omap in Hlast as (link & Hin & Hlink).
    case_bool_decide; [|done]. eauto 10. }
  split_and!.
  - apply parsed_report_expected.
  - unfold expected_report. rewrite !lookup_insert_ne by done.
    apply lookup_insert_eq.
  - intros key Hkey. apply elem_of_dom in Hkey as [v Hv].
    destruct (Hsrc key v Hv) as (link & href & _ & Hc & _).
    by apply (classify_service (link_text link)).
  - intros key v Hv.
    destruct (Hsrc key v Hv) as (link & href & Hin & _ & Hhref & ->).
    exists link, href. split_and!; [done| |done..].
    unfold lookup_links in Hin.
    destruct (locate doc "malware_lookup" "section"); [|by apply elem_of_nil in Hin].
    unfold find_all_href in Hin.
    by apply list_elem_of_filter in Hin as [[? _] _].
Qed.

Lemma lower_char_idemp c : lower_char (lower_char c) = lower_char c.
Proof. by destruct c as [[] [] [] [] [] [] [] []]. Qed.

Lemma lower_idemp s : lower (lower s) = lower s.
Proof.
  induction s as [|c s IH]; [done|].
  simpl. by rewrite lower_char_idemp, IH.
Qed.

(** X14: every key of every record of a table is in lower case:
    [lower] leaves it as it is. *)
Theorem field_names_are_lowercase (table : node) :
  Forall (λ record : gmap string string,
            ∀ k, k ∈ dom record → lower k = k)
         (table_rows table).
Proof.
  unfold table_rows. cbv zeta. rewrite collect_rows_omap.
  apply Forall_forall. intros record Hin k Hk.
  apply list_elem_of_omap in Hin as (tr & _ & Hrec).
  rewrite (emitted_record_dom _ _ _ Hrec) in Hk.
  apply elem_of_list_to_set, subseteq_take in Hk.
  unfold table_headers in Hk.
  apply list_elem_of_fmap in Hk as (h & -> & _).
  apply lower_idemp.
Qed.

(** *** Rows inside rows *)

Lemma node_nested_ind (P : node → Prop) :
  (∀ s, P (NavigableString s)) →
  (∀ name attrs cs, Forall P cs → P (Tag name attrs cs)) →
  ∀ n, P n.
Proof.
  intros Hs Ht. fix IH 1. intros [s|name attrs cs]; [apply Hs|].
  apply Ht. induction cs as [|c cs IHcs]; constructor; [apply IH | apply IHcs].
Qed.

Lemma descendants_sublist n d :
  d ∈ descendants n → descendants d `sublist_of` descendants n.
Proof.
  revert d. induction n as [s|name attrs cs IH] using node_nested_ind;
    intros d Hd; [by apply elem_of_nil in Hd|].
  simpl in *. induction IH as [|c cs Hc _ IHcs]; [by apply elem_of_nil in Hd|].
  simpl in Hd. change (flat_map self_and_descendants (c :: cs))
    with (self_and_descendants c ++ flat_map self_and_descendants cs)%list.
  apply elem_of_app in Hd as [Hd|Hd].
  - apply sublist_inserts_r.
    assert (self_and_descendants c = c :: descendants c) as Hsad
      by (by destruct c).
    rewrite Hsad in Hd |- *.
    apply elem_of_cons in Hd as [->|Hd]; apply sublist_cons; [done|].
    by apply Hc.
  - apply sublist_inserts_l, IHcs, Hd.
Qed.

Lemma filter_sublist_mono {A} (P : A → Prop) `{!∀ x, Decision (P x)}
    (l1 l2 : list A) :
  l1 `sublist_of` l2 → filter P l1 `sublist_of` filter P l2.
Proof.
  induction 1 as [|x l1 l2 _ IH|x l1 l2 _ IH]; [done| |].
  - rewrite !filter_cons. destruct (decide (P x)); [by apply sublist_skip|done].
  - rewrite filter_cons. destruct (decide (P x)); [by apply sublist_cons|done].
Qed.

(** X15: the search below a tag goes through every level: the elements
    found below an element that lies below [outer] are found below
    [outer] too, in the same order.  So the rows of a table nested in a
    cell are rows of the enclosing table as well, and the cells of a row
    nested in a row are cells of the enclosing row as well. *)
Theorem nested_elements_found_again (outer inner : node) (name : string) :
  inner ∈ descendants outer →
  find_all inner name `sublist_of` find_all outer name
  ∧ row_cols inner `sublist_of` row_cols outer.
Proof.
  intros Hin. apply descendants_sublist in Hin.
  assert (∀ nm, find_all inner nm `sublist_of` find_all outer nm) as Hall
    by (intros nm; by apply filter_sublist_mono).
  split; [apply Hall|]. unfold row_cols. apply fmap_sublist, Hall.
Qed.

Lemma nested_elements_found_again_witness :
  inner_row ∈ descendants outer_row
  ∧ row_cols inner_row = ["2"]
  ∧ row_cols outer_row = ["1 2"; "2"]
  ∧ row_cols inner_row `sublist_of` row_cols outer_row.
Proof.
  assert (inner_row ∈ descendants outer_row) as Hin.
  { unfold outer_row, Examples.tag. cbn [descendants flat_map app
      self_and_descendants].
    do 3 apply list_elem_of_further. apply list_elem_of_here. }
  split_and!; [exact Hin | by vm_compute | by vm_compute |].
  by destruct (nested_elements_found_again outer_row inner_row "tr" Hin).
Defined.
